(** * Book API (server.js): a shallow embedding of the route handlers

    The program is an Express application holding one module-level array
    [books] and five route handlers over it.  Each handler is embedded as a
    function from the request's inputs and the current array to the outcome
    of the request and the array afterwards (explicit state passing: the
    handlers run to completion one at a time). *)

From Stdlib Require Import ZArith Ascii String.
From stdpp Require Import gmap strings list.

Set Warnings "-register-all".
Local Open Scope Z_scope.

(** ** JavaScript values the handlers touch *)

(** A JavaScript number as far as the handlers see one: an integer or NaN.
    [parseInt] yields the exact integer here, where JavaScript rounds
    anything beyond 2^53 to a double; the ids it is compared with are array
    lengths and integers that already matched such an id, all below 2^53,
    where the two agree. *)
Inductive number :=
  | Num (n : Z)
  | NaN.

(** [a === b] on numbers: NaN is equal to nothing, itself included. *)
Definition strict_eq (a b : number) : bool :=
  match a, b with
  | Num x, Num y => bool_decide (x = y)
  | _, _ => false
  end.

(** A value parsed from a JSON request body. *)
Inductive json :=
  | JNull
  | JBool (b : bool)
  | JNum (n : Z)
  | JStr (s : string)
  | JArr (l : list json)
  | JObj (o : list (string * json)).

(** A book record: [id] is always set by the server, the other four
    properties hold whatever the request body had under that key, and are
    [None] ([undefined]) when it had none. *)
Record Book := mkBook {
  id : number;
  title : option json;
  author : option json;
  genre : option json;
  copiesAvailable : option json
}.

(** ** parseInt(string), radix omitted *)

Definition code (c : ascii) : Z := Z.of_N (N_of_ascii c).

(** White space skipped at the start (code units below 256). *)
Definition is_white (c : ascii) : bool :=
  let n := code c in
  ((9 <=? n) && (n <=? 13)) || (n =? 32) || (n =? 160).

(** Value of a character as a digit in radix 36, if it is one. *)
Definition digit_value (c : ascii) : option Z :=
  let n := code c in
  if (48 <=? n) && (n <=? 57) then Some (n - 48)
  else if (97 <=? n) && (n <=? 122) then Some (n - 87)
  else if (65 <=? n) && (n <=? 90) then Some (n - 55)
  else None.

Definition digit_in (R : Z) (c : ascii) : option Z :=
  match digit_value c with
  | Some d => if d <? R then Some d else None
  | None => None
  end.

Fixpoint trim_start (s : string) : string :=
  match s with
  | String c s' => if is_white c then trim_start s' else s
  | EmptyString => s
  end.

(** The longest prefix of radix-[R] digits, as a number; [acc] is [None]
    until a first digit was read. *)
Fixpoint parse_digits (R : Z) (s : string) (acc : option Z) : option Z :=
  match s with
  | String c s' =>
      match digit_in R c with
      | Some d => parse_digits R s' (Some (R * default 0 acc + d))
      | None => acc
      end
  | EmptyString => acc
  end.

Definition is_char (c : ascii) (s : string) : bool :=
  match s with
  | String c' _ => Ascii.eqb c c'
  | EmptyString => false
  end.

Definition tail (s : string) : string :=
  match s with
  | String _ s' => s'
  | EmptyString => s
  end.

(** Does the string begin with 0x or 0X? *)
Definition hex_prefixed (s : string) : bool :=
  is_char "0" s && (is_char "x" (tail s) || is_char "X" (tail s)).

Definition parseInt (s : string) : number :=
  let s1 := trim_start s in
  let sign := if is_char "-" s1 then -1 else 1 in
  let s2 := if is_char "-" s1 || is_char "+" s1 then tail s1 else s1 in
  let R := if hex_prefixed s2 then 16 else 10 in
  let s3 := if hex_prefixed s2 then tail (tail s2) else s2 in
  match parse_digits R s3 None with
  | Some n => Num (sign * n)
  | None => NaN
  end.

(** ** Array methods *)

(** [l.find(p)]: the first element satisfying [p], [None] for
    [undefined]. *)
Fixpoint find {A} (p : A → bool) (l : list A) : option A :=
  match l with
  | [] => None
  | x :: l' => if p x then Some x else find p l'
  end.

(** [l.findIndex(p)]: the index of that element, [None] for -1. *)
Fixpoint findIndex {A} (p : A → bool) (l : list A) : option nat :=
  match l with
  | [] => None
  | x :: l' => if p x then Some 0%nat else S <$> findIndex p l'
  end.

(** [l.splice(i, 1)]: the removed elements, and the array afterwards. *)
Definition splice1 {A} (i : nat) (l : list A) : list A * list A :=
  (take 1 (drop i l), take i l ++ drop (S i) l).

(** ** Requests and responses *)

Inductive body :=
  | WelcomeJson
  | BooksJson (l : list Book)
  | BookJson (b : option Book)
  | ErrorJson (error : string)
  | DeletedJson (message : string) (book : option Book)
  | NoRoute.

Record response := mkResponse {
  status : Z;
  payload : body
}.

(** A handler either sends a response or throws; the only exception the
    handlers can raise is the TypeError of destructuring [undefined]. *)
Inductive outcome :=
  | Sent (r : response)
  | Thrown.

(** The status the client sees: Express answers an uncaught exception
    with 500. *)
Definition status_of (o : outcome) : Z :=
  match o with
  | Sent r => status r
  | Thrown => 500
  end.

Definition json_ok (b : body) : outcome := Sent (mkResponse 200 b).

Definition not_found : outcome :=
  Sent (mkResponse 404 (ErrorJson "Book not found")).

(** ** The store and its handlers *)

(** The array [books] as the module initialises it. *)
Definition seed : list Book :=
  [ mkBook (Num 1) (Some (JStr "The Great Gatsby"))
      (Some (JStr "F. Scott Fitzgerald")) (Some (JStr "Fiction"))
      (Some (JNum 5));
    mkBook (Num 2) (Some (JStr "To Kill a Mockingbird"))
      (Some (JStr "Harper Lee")) (Some (JStr "Fiction")) (Some (JNum 3));
    mkBook (Num 3) (Some (JStr "1984")) (Some (JStr "George Orwell"))
      (Some (JStr "Dystopian Fiction")) (Some (JNum 7)) ].

(** [req.body]: [None] when the JSON middleware left it [undefined],
    otherwise the parsed object, a finite map from keys to values.  (A
    parsed array has none of the four keys and behaves as the empty
    object.) *)
Definition req_body := option (gmap string json).

(** GET /api/books *)
Definition get_books (books : list Book) : outcome * list Book :=
  (json_ok (BooksJson books), books).

(** GET /api/books/:id *)
Definition get_book (seg : string) (books : list Book)
  : outcome * list Book :=
  let bookId := parseInt seg in
  match find (λ m, strict_eq (id m) bookId) books with
  | Some book => (json_ok (BookJson (Some book)), books)
  | None => (not_found, books)
  end.

(** POST /api/books *)
Definition post_book (b : req_body) (books : list Book)
  : outcome * list Book :=
  match b with
  | None => (Thrown, books)
  | Some o =>
      let newBook :=
        mkBook (Num (Z.of_nat (length books) + 1))
          (o !! "title") (o !! "author") (o !! "genre")
          (o !! "copiesAvailable") in
      (Sent (mkResponse 201 (BookJson (Some newBook))), books ++ [newBook])
  end.

(** PUT /api/books/:id.  The index written to comes from [findIndex], so it
    is inside the array, where stdpp's insert is the assignment. *)
Definition put_book (seg : string) (b : req_body) (books : list Book)
  : outcome * list Book :=
  let bookId := parseInt seg in
  match b with
  | None => (Thrown, books)
  | Some o =>
      match findIndex (λ m, strict_eq (id m) bookId) books with
      | None => (not_found, books)
      | Some bookIndex =>
          let books' :=
            <[bookIndex :=
                mkBook bookId (o !! "title") (o !! "author") (o !! "genre")
                  (o !! "copiesAvailable")]> books in
          (json_ok (BookJson (books' !! bookIndex)), books')
      end
  end.

(** DELETE /api/books/:id *)
Definition delete_book (seg : string) (books : list Book)
  : outcome * list Book :=
  let bookId := parseInt seg in
  match findIndex (λ m, strict_eq (id m) bookId) books with
  | None => (not_found, books)
  | Some bookIndex =>
      let '(removed, books') := splice1 bookIndex books in
      (json_ok (DeletedJson "Book deleted successfully" (head removed)),
       books')
  end.

(** The routes the application registers; any other method and path falls
    through to Express's own 404. *)
Inductive request :=
  | GET_root
  | GET_books
  | GET_book (seg : string)
  | POST_books (b : req_body)
  | PUT_book (seg : string) (b : req_body)
  | DELETE_book (seg : string)
  | Unrouted.

Definition handle (r : request) (books : list Book) : outcome * list Book :=
  match r with
  | GET_root => (json_ok WelcomeJson, books)
  | GET_books => get_books books
  | GET_book seg => get_book seg books
  | POST_books b => post_book b books
  | PUT_book seg b => put_book seg b books
  | DELETE_book seg => delete_book seg books
  | Unrouted => (Sent (mkResponse 404 NoRoute), books)
  end.

(** The array after a sequence of requests. *)
Definition run (rs : list request) (books : list Book) : list Book :=
  foldl (λ s r, (handle r s).2) books rs.

(** The states the array can be in while the server runs. *)
Inductive reachable : list Book → Prop :=
  | reach_seed : reachable seed
  | reach_step r s : reachable s → reachable (handle r s).2.

(** ** Vocabulary of the statements *)

(** The record POST builds from the object [o] when the array has
    [n] elements. *)
Definition created (n : nat) (o : gmap string json) : Book :=
  mkBook (Num (Z.of_nat n + 1)) (o !! "title") (o !! "author")
    (o !! "genre") (o !! "copiesAvailable").

(** The record PUT stores under the id [x] for the object [o]. *)
Definition replacement (x : number) (o : gmap string json) : Book :=
  mkBook x (o !! "title") (o !! "author") (o !! "genre")
    (o !! "copiesAvailable").

Definition is_digit (c : ascii) : bool :=
  (48 <=? code c) && (code c <=? 57).

Fixpoint all_digits (s : string) : bool :=
  match s with
  | String c s' => is_digit c && all_digits s'
  | EmptyString => true
  end.

(** The string is empty or begins with a character that is no decimal
    digit. *)
Definition no_leading_digit (s : string) : bool :=
  match s with
  | String c _ => negb (is_digit c)
  | EmptyString => true
  end.

(** The integer a string of decimal digits denotes, read after [acc]. *)
Fixpoint decimal_from (acc : Z) (s : string) : Z :=
  match s with
  | String c s' => decimal_from (10 * acc + (code c - 48)) s'
  | EmptyString => acc
  end.

Definition decimal (s : string) : Z := decimal_from 0 s.

(** No character of the string is a decimal digit. *)
Fixpoint no_digits (s : string) : bool :=
  match s with
  | String c s' => negb (is_digit c) && no_digits s'
  | EmptyString => true
  end.

(** The ids in the array are 1, 2, ... in array order. *)
Definition numbered (s : list Book) : Prop :=
  id <$> s = (λ k, Num (Z.of_nat k)) <$> seq 1 (length s).

(** Every id in the array is an integer, and at least 1. *)
Definition positive_ids (s : list Book) : Prop :=
  Forall (λ x, ∃ n, x = Num n ∧ 1 ≤ n) (id <$> s).

Fixpoint all_white (s : string) : bool :=
  match s with
  | String c s' => is_white c && all_white s'
  | EmptyString => true
  end.

(** The string is empty or begins with a character that is no white
    space, no sign and no decimal digit. *)
Definition no_number_start (s : string) : bool :=
  match s with
  | String c _ =>
      negb (is_white c) && negb (Ascii.eqb "-" c) && negb (Ascii.eqb "+" c)
      && negb (is_digit c)
  | EmptyString => true
  end.

(** The decimal digits of [n], most significant first, put before [acc];
    [fuel] bounds the number of digits. *)
Fixpoint digits_of (fuel : nat) (n : Z) (acc : string) : string :=
  match fuel with
  | O => acc
  | S fuel' =>
      let acc' := String (ascii_of_N (Z.to_N (48 + n mod 10))) acc in
      if n <? 10 then acc' else digits_of fuel' (n / 10) acc'
  end.

(** A number as the test suite's ['/api/books/' + res.body.id] writes it
    into the path: the decimal numeral, which is what JavaScript prints for
    an integer below 10^21. *)
Definition number_to_string (x : number) : string :=
  match x with
  | NaN => "NaN"
  | Num n =>
      if n <? 0 then String "-" (digits_of (S (Z.to_nat (Z.log2 (- n)))) (- n) "")
      else digits_of (S (Z.to_nat (Z.log2 n))) n ""
  end.

(** Requests that create. *)
Definition is_post (r : request) : bool :=
  match r with
  | POST_books _ => true
  | _ => false
  end.

(** Request sequences that delete nothing. *)
Definition is_delete (r : request) : bool :=
  match r with
  | DELETE_book _ => true
  | _ => false
  end.

(** ** Facts about the array methods *)

Section array_methods.
Context {A : Type} (p : A → bool).

Lemma findIndex_Some_iff (l : list A) (i : nat) :
  findIndex p l = Some i ↔
  ∃ x, l !! i = Some x ∧ p x = true ∧
       ∀ j y, (j < i)%nat → l !! j = Some y → p y = false.
Proof.
  revert i. induction l as [|a l IH]; intros i; simpl.
  - split; [done | intros (x & Hx & _); done].
  - destruct (p a) eqn:Ha.
    + split.
      * intros [= <-]. exists a. split_and!; [done..|]. intros; lia.
      * intros (x & Hx & Hp & Hfirst). destruct i as [|i]; [done|].
        specialize (Hfirst 0%nat a). simpl in Hfirst.
        rewrite Hfirst in Ha; [done | lia | done].
    + destruct i as [|i].
      * split.
        -- destruct (findIndex p l); done.
        -- intros (x & [= ->] & Hp & _). congruence.
      * rewrite fmap_Some. split.
        -- intros (k & Hk & [= ->]). apply IH in Hk as (x & Hx & Hp & Hfirst).
           exists x. split_and!; [done..|].
           intros [|j] y Hj Hy; simpl in Hy; [by simplify_eq|].
           apply (Hfirst j); [lia | done].
        -- intros (x & Hx & Hp & Hfirst). exists i. split; [|done].
           apply IH. exists x. split_and!; [done..|].
           intros j y Hj Hy. apply (Hfirst (S j)); [lia | done].
Qed.

Lemma findIndex_None_iff (l : list A) :
  findIndex p l = None ↔ ∀ x, x ∈ l → p x = false.
Proof.
  induction l as [|a l IH]; simpl.
  - split; [intros _ x Hx; by apply elem_of_nil in Hx | done].
  - destruct (p a) eqn:Ha.
    + split; [done|]. intros H. rewrite H in Ha; [done | by left].
    + rewrite fmap_None, IH. split.
      * intros H x [->|Hx]%elem_of_cons; auto.
      * intros H x Hx. apply H. by right.
Qed.

Lemma findIndex_lt (l : list A) (i : nat) :
  findIndex p l = Some i → (i < length l)%nat.
Proof.
  intros (x & Hx & _)%findIndex_Some_iff. by eapply lookup_lt_Some.
Qed.

(** [find] returns the element at the index [findIndex] returns. *)
Lemma find_findIndex (l : list A) :
  find p l = findIndex p l ≫= (l !!.).
Proof.
  induction l as [|a l IH]; simpl; [done|].
  destruct (p a); [done|]. rewrite IH. by destruct (findIndex p l).
Qed.

Lemma splice1_spec (l : list A) (i : nat) :
  splice1 i l = (option_list (l !! i), delete i l).
Proof.
  unfold splice1. f_equal; [|by rewrite delete_take_drop].
  revert i. induction l as [|a l IH]; intros [|i]; simpl; done.
Qed.
End array_methods.

Lemma strict_eq_true (a b : number) :
  strict_eq a b = true ↔ ∃ n, a = Num n ∧ b = Num n.
Proof.
  destruct a as [x|], b as [y|]; simpl;
    try (split; [done | intros (n & ? & ?); done]).
  rewrite bool_decide_eq_true. split.
  - intros ->. by exists y.
  - intros (n & [= ->] & [= ->]). done.
Qed.

Lemma strict_eq_Num (a : number) (n : Z) :
  strict_eq a (Num n) = true ↔ a = Num n.
Proof.
  rewrite strict_eq_true. split.
  - intros (k & -> & [= ->]). done.
  - intros ->. by exists n.
Qed.

Lemma strict_eq_NaN (a : number) : strict_eq a NaN = false.
Proof. by destruct a. Qed.

(** ** The embedding on the scenarios of the test suite *)

Example parseInt_examples :
  parseInt "2" = Num 2 ∧ parseInt "2abc" = Num 2 ∧ parseInt "abc" = NaN ∧
  parseInt "0xf" = Num 15 ∧ parseInt "0x" = NaN ∧ parseInt " -12px" = Num (-12) ∧
  parseInt "" = NaN ∧ parseInt "999" = Num 999.
Proof. vm_compute. repeat split. Qed.

Example get_seed : (get_book "1" seed).1 =
  json_ok (BookJson (Some (mkBook (Num 1) (Some (JStr "The Great Gatsby"))
      (Some (JStr "F. Scott Fitzgerald")) (Some (JStr "Fiction"))
      (Some (JNum 5))))).
Proof. reflexivity. Qed.

Example get_missing : get_book "999" seed = (not_found, seed).
Proof. reflexivity. Qed.

Example delete_then_get :
  (get_book "3" (delete_book "3" seed).2).1 = not_found.
Proof. reflexivity. Qed.

(** ** Create *)

(** C3: for every object sent as the body, POST /api/books answers 201 with
    the new record, whose id is the array's length plus one and whose four
    other properties are the body's values under those keys (undefined where
    the body has none, and no other key of the body has any influence); the
    record is appended, so the array is one longer, its last element is the
    new record and every earlier element is where and what it was. *)
Theorem post_book_appends (o : gmap string json) (books : list Book) :
  let r := post_book (Some o) books in
  let nb := created (length books) o in
  r.1 = Sent (mkResponse 201 (BookJson (Some nb))) ∧
  r.2 = books ++ [nb] ∧
  id nb = Num (Z.of_nat (length books) + 1) ∧
  title nb = o !! "title" ∧ author nb = o !! "author" ∧
  genre nb = o !! "genre" ∧ copiesAvailable nb = o !! "copiesAvailable" ∧
  length r.2 = S (length books) ∧
  r.2 !! length books = Some nb ∧
  (∀ i b, books !! i = Some b → r.2 !! i = Some b) ∧
  (∀ k v, k ∉ ["title"; "author"; "genre"; "copiesAvailable"] →
          post_book (Some (<[k:=v]> o)) books = r).
Proof.
  simpl. split_and!; try done.
  - rewrite length_app. simpl. lia.
  - rewrite lookup_app_r by lia. by rewrite Nat.sub_diag.
  - intros i b Hi. by apply lookup_app_l_Some.
  - intros k v Hk. unfold created.
    rewrite !lookup_insert_ne; [done|..]; intros ->; apply Hk; set_solver.
Qed.

Lemma post_book_appends_witness :
  post_book (Some (<["isbn":=JStr "x"]> {["title" := JStr "Partial"]})) seed =
    (Sent (mkResponse 201
             (BookJson (Some (mkBook (Num 4) (Some (JStr "Partial"))
                                None None None)))),
     seed ++ [mkBook (Num 4) (Some (JStr "Partial")) None None None]).
Proof.
  destruct (post_book_appends {["title" := JStr "Partial"]} seed)
    as (_ & _ & _ & _ & _ & _ & _ & _ & _ & _ & Hkeys).
  rewrite (Hkeys "isbn" (JStr "x")); [reflexivity|].
  intros H. repeat (apply elem_of_cons in H as [H|H]; [discriminate H|]).
  by apply elem_of_nil in H.
Defined.

(** ** GetByID *)

(** C6: when the path segment parses to the integer [n], GET /api/books/:id
    leaves the array as it is; it answers 200 with the first record in array
    order whose id is [n], and 404 with the error "Book not found" when no
    record has that id. *)
Theorem get_book_first_match (seg : string) (n : Z) (books : list Book) :
  parseInt seg = Num n →
  (get_book seg books).2 = books ∧
  (∀ i b, books !! i = Some b → id b = Num n →
          (∀ j m, (j < i)%nat → books !! j = Some m → id m ≠ Num n) →
          (get_book seg books).1 = Sent (mkResponse 200 (BookJson (Some b)))) ∧
  ((∀ m, m ∈ books → id m ≠ Num n) →
   (get_book seg books).1 = Sent (mkResponse 404 (ErrorJson "Book not found"))).
Proof.
  intros Hseg. unfold get_book. rewrite Hseg, find_findIndex. split_and!.
  - by destruct (findIndex _ books ≫= _).
  - intros i b Hb Hid Hfirst.
    assert (findIndex (λ m, strict_eq (id m) (Num n)) books = Some i) as ->.
    { apply findIndex_Some_iff. exists b. split_and!; [done| |].
      - by apply strict_eq_Num.
      - intros j m Hj Hm. apply not_true_is_false.
        rewrite strict_eq_Num. by eapply Hfirst. }
    simpl. by rewrite Hb.
  - intros Hnone.
    assert (findIndex (λ m, strict_eq (id m) (Num n)) books = None) as ->; [|done].
    apply findIndex_None_iff. intros m Hm. apply not_true_is_false.
    rewrite strict_eq_Num. by apply Hnone.
Qed.

Lemma get_book_first_match_witness :
  (get_book "2" seed).1 = Sent (mkResponse 200 (BookJson (seed !! 1%nat))).
Proof.
  destruct (get_book_first_match "2" 2 seed eq_refl) as (_ & Hhit & _).
  apply (Hhit 1%nat _ eq_refl eq_refl).
  intros [|j] m Hj Hm; [|lia]. by injection Hm as <-.
Defined.

(** ** Ids that are not numbers *)

(** No record matches NaN. *)
Lemma findIndex_NaN (books : list Book) :
  findIndex (λ m, strict_eq (id m) NaN) books = None.
Proof. apply findIndex_None_iff. intros m _. apply strict_eq_NaN. Qed.

(** C7, as amended: when the path segment does not parse as an integer
    (parseInt gives NaN), GET, DELETE, and PUT with an object as request
    body all answer 404 with the error "Book not found" and leave the array
    unchanged; PUT on such a segment leaves the array unchanged whatever its
    body is. *)
Theorem non_numeric_id_not_found (seg : string) (o : gmap string json)
    (books : list Book) :
  parseInt seg = NaN →
  get_book seg books = (Sent (mkResponse 404 (ErrorJson "Book not found")), books) ∧
  put_book seg (Some o) books =
    (Sent (mkResponse 404 (ErrorJson "Book not found")), books) ∧
  delete_book seg books =
    (Sent (mkResponse 404 (ErrorJson "Book not found")), books) ∧
  ∀ b, (put_book seg b books).2 = books.
Proof.
  intros Hseg. unfold get_book, put_book, delete_book.
  rewrite Hseg, find_findIndex, findIndex_NaN. split_and!; [done..|].
  by intros [o'|].
Qed.

Lemma non_numeric_id_not_found_witness :
  status_of (get_book "abc" seed).1 = 404 ∧
  status_of (put_book "abc" (Some {["title" := JStr "x"]}) seed).1 = 404 ∧
  status_of (delete_book "abc" seed).1 = 404.
Proof.
  destruct (non_numeric_id_not_found "abc" {["title" := JStr "x"]} seed eq_refl)
    as (-> & -> & -> & _).
  done.
Defined.

(** C7 as stated fails: the claim covers every PUT on a segment that is no
    number, and a PUT that carries no body leaves [req.body] undefined.  The
    handler destructures the body before it searches the array, so on the
    segment abc it throws and the client gets 500, not 404. *)
Lemma bodyless_put_on_non_numeric_id_throws :
  ¬ (∀ seg b books,
       parseInt seg = NaN →
       status_of (get_book seg books).1 = 404 ∧
       status_of (put_book seg b books).1 = 404 ∧
       status_of (delete_book seg books).1 = 404).
Proof.
  intros Hclaim.
  destruct (Hclaim "abc" None seed eq_refl) as (_ & Hput & _).
  assert (put_book "abc" None seed = (Thrown, seed)) as Hthrown
    by reflexivity.
  rewrite Hthrown in Hput. simpl in Hput. discriminate Hput.
Qed.

(** ** Replace *)

(** C4: PUT /api/books/:id with an object [o] as body.  When [old], at
    index [i], is the first record whose id equals the parsed segment, the
    record stored at [i] afterwards is built from the id and the body alone:
    it has [old]'s id, the body's values for the four other properties, and
    undefined wherever the body has no such key, whatever [old] held there;
    that record is the answer, with status 200.  When no record's id equals
    the parsed segment the answer is 404 with the error "Book not found" and
    the array is unchanged. *)
Theorem put_book_replaces (seg : string) (o : gmap string json)
    (books : list Book) :
  (∀ i old,
     books !! i = Some old →
     strict_eq (id old) (parseInt seg) = true →
     (∀ j m, (j < i)%nat → books !! j = Some m →
             strict_eq (id m) (parseInt seg) = false) →
     let nb := replacement (id old) o in
     put_book seg (Some o) books =
       (Sent (mkResponse 200 (BookJson (Some nb))), <[i:=nb]> books) ∧
     id nb = id old ∧
     title nb = o !! "title" ∧ author nb = o !! "author" ∧
     genre nb = o !! "genre" ∧ copiesAvailable nb = o !! "copiesAvailable" ∧
     (<[i:=nb]> books) !! i = Some nb) ∧
  ((∀ m, m ∈ books → strict_eq (id m) (parseInt seg) = false) →
   put_book seg (Some o) books =
     (Sent (mkResponse 404 (ErrorJson "Book not found")), books)).
Proof.
  split.
  - intros i old Hold Heq Hfirst nb.
    assert (i < length books)%nat as Hi by by eapply lookup_lt_Some.
    assert (findIndex (λ m, strict_eq (id m) (parseInt seg)) books = Some i)
      as Hfind.
    { apply findIndex_Some_iff. by exists old. }
    assert (parseInt seg = id old) as Hid.
    { apply strict_eq_true in Heq as (n & -> & ->). done. }
    split_and!; try done.
    + unfold put_book. rewrite Hfind. simpl.
      rewrite list_lookup_insert_eq by done. by rewrite Hid.
    + by apply list_lookup_insert_eq.
  - intros Hnone. unfold put_book.
    by rewrite (proj2 (findIndex_None_iff _ books) Hnone).
Qed.

Lemma put_book_replaces_witness :
  put_book "1" (Some {["title" := JStr "Only Title"]}) seed =
    (Sent (mkResponse 200
             (BookJson (Some (mkBook (Num 1) (Some (JStr "Only Title"))
                                None None None)))),
     mkBook (Num 1) (Some (JStr "Only Title")) None None None
       :: drop 1 seed).
Proof.
  destruct (put_book_replaces "1" {["title" := JStr "Only Title"]} seed)
    as (Hhit & _).
  destruct (Hhit 0%nat (mkBook (Num 1) (Some (JStr "The Great Gatsby"))
      (Some (JStr "F. Scott Fitzgerald")) (Some (JStr "Fiction"))
      (Some (JNum 5))) eq_refl eq_refl) as (Hput & _).
  - intros j m Hj. lia.
  - exact Hput.
Defined.

(** ** Delete *)

(** What DELETE does on a match: the record at the index found is taken out
    of the array, the others keep their order, and the record is the [book]
    of the 200 answer. *)
Lemma delete_book_found (seg : string) (books : list Book) (i : nat) :
  findIndex (λ m, strict_eq (id m) (parseInt seg)) books = Some i →
  ∃ old, books !! i = Some old ∧
    delete_book seg books =
      (Sent (mkResponse 200
               (DeletedJson "Book deleted successfully" (Some old))),
       delete i books).
Proof.
  intros Hfind. pose proof Hfind as (old & Hold & _)%findIndex_Some_iff.
  exists old. split; [done|]. unfold delete_book.
  rewrite Hfind, splice1_spec, Hold. done.
Qed.

Lemma delete_book_missing (seg : string) (books : list Book) :
  findIndex (λ m, strict_eq (id m) (parseInt seg)) books = None →
  delete_book seg books = (not_found, books).
Proof. intros Hfind. unfold delete_book. by rewrite Hfind. Qed.

(** While the ids in the array are pairwise distinct, deleting a record
    leaves none with its id, so that deleting the same id again answers
    404. *)
Lemma delete_book_twice_distinct_ids (seg : string) (books : list Book)
    (i : nat) :
  NoDup (id <$> books) →
  findIndex (λ m, strict_eq (id m) (parseInt seg)) books = Some i →
  delete_book seg (delete_book seg books).2 =
    (not_found, (delete_book seg books).2).
Proof.
  intros Hnd Hfind.
  destruct (delete_book_found _ _ _ Hfind) as (old & Hold & ->). simpl.
  apply delete_book_missing, findIndex_None_iff.
  intros m Hm. apply not_true_is_false. intros Hmatch.
  apply findIndex_Some_iff in Hfind as (old' & Hold' & Hp & _).
  assert (old' = old) as -> by congruence.
  apply strict_eq_true in Hp as (n & Hn & Hseg).
  rewrite Hseg in Hmatch. apply strict_eq_Num in Hmatch.
  apply list_elem_of_lookup in Hm as (j & Hj).
  destruct (decide (j < i)%nat) as [Hlt|Hge].
  - rewrite list_lookup_delete_lt in Hj by done.
    assert (j = i); [|lia].
    eapply (NoDup_lookup _ _ _ _ Hnd); rewrite list_lookup_fmap.
    + by rewrite Hj; simpl; rewrite Hmatch.
    + by rewrite Hold; simpl; rewrite Hn.
  - rewrite list_lookup_delete_ge in Hj by lia.
    assert (S j = i); [|lia].
    eapply (NoDup_lookup _ _ _ _ Hnd); rewrite list_lookup_fmap.
    + by rewrite Hj; simpl; rewrite Hmatch.
    + by rewrite Hold; simpl; rewrite Hn.
Qed.

(** C5, at the input where it fails: delete id 2 from the initial array,
    create a record (it gets id 3, as the array has two elements), then
    delete id 3 twice in a row.  Both deletes answer 200; the second one
    removes the record just created. *)
Theorem delete_twice_after_collision :
  let s := run [DELETE_book "2"; POST_books (Some ∅)] seed in
  reachable s ∧
  (delete_book "3" s).1 =
    Sent (mkResponse 200
            (DeletedJson "Book deleted successfully" (seed !! 2%nat))) ∧
  (delete_book "3" (delete_book "3" s).2).1 =
    Sent (mkResponse 200
            (DeletedJson "Book deleted successfully"
               (Some (mkBook (Num 3) None None None None)))) ∧
  status_of (delete_book "3" (delete_book "3" s).2).1 ≠ 404.
Proof.
  split_and!.
  - apply (reach_step (POST_books (Some ∅)) _
             (reach_step (DELETE_book "2") _ reach_seed)).
  - reflexivity.
  - reflexivity.
  - vm_compute. discriminate.
Qed.

(** ** Frame *)

(** PUT never changes the ids held in the array, at any position. *)
Lemma put_book_ids (seg : string) (b : req_body) (books : list Book) :
  id <$> (put_book seg b books).2 = id <$> books.
Proof.
  unfold put_book. destruct b as [o|]; [|done].
  destruct (findIndex _ books) as [i|] eqn:Hfind; [|done]. simpl.
  apply findIndex_Some_iff in Hfind as (old & Hold & Hp & _).
  apply strict_eq_true in Hp as (n & Hn & ->).
  rewrite list_fmap_insert. simpl. apply list_insert_id.
  by rewrite list_lookup_fmap, Hold; simpl; rewrite Hn.
Qed.

(** C9: when the parsed segment matches first at index [i], PUT keeps the
    array's length, every element at another index and the id at every
    index; DELETE leaves the array without its element at [i], the elements
    before [i] where they were and the ones after it one place down, in
    their order; POST keeps every element where it was.  So no request
    changes the id of a record that stays in the array. *)
Theorem mutations_keep_other_records (seg : string) (b : req_body)
    (o : gmap string json) (books : list Book) (i : nat) :
  findIndex (λ m, strict_eq (id m) (parseInt seg)) books = Some i →
  (let books' := (put_book seg (Some o) books).2 in
   length books' = length books ∧
   (∀ j, j ≠ i → books' !! j = books !! j) ∧
   id <$> books' = id <$> books) ∧
  (let books' := (delete_book seg books).2 in
   books' = take i books ++ drop (S i) books ∧
   S (length books') = length books ∧
   (∀ j, (j < i)%nat → books' !! j = books !! j) ∧
   (∀ j, (i ≤ j)%nat → books' !! j = books !! S j) ∧
   books' `sublist_of` books) ∧
  (∀ j m, books !! j = Some m → (post_book b books).2 !! j = Some m).
Proof.
  intros Hfind. pose proof (findIndex_lt _ _ _ Hfind) as Hi.
  cbv zeta. split_and!.
  - unfold put_book. rewrite Hfind. simpl. apply length_insert.
  - intros j Hj. unfold put_book. rewrite Hfind. simpl.
    by apply list_lookup_insert_ne.
  - apply put_book_ids.
  - destruct (delete_book_found _ _ _ Hfind) as (old & _ & ->). simpl.
    apply delete_take_drop.
  - destruct (delete_book_found _ _ _ Hfind) as (old & _ & ->). simpl.
    rewrite length_delete by by apply lookup_lt_is_Some. lia.
  - destruct (delete_book_found _ _ _ Hfind) as (old & _ & ->). simpl.
    intros j Hj. by apply list_lookup_delete_lt.
  - destruct (delete_book_found _ _ _ Hfind) as (old & _ & ->). simpl.
    intros j Hj. by apply list_lookup_delete_ge.
  - destruct (delete_book_found _ _ _ Hfind) as (old & _ & ->). simpl.
    apply sublist_delete.
  - intros j m Hj. destruct b as [o'|]; simpl; [|done].
    by apply lookup_app_l_Some.
Qed.

Lemma mutations_keep_other_records_witness :
  (put_book "2" (Some ∅) seed).2 !! 0%nat = seed !! 0%nat ∧
  (delete_book "2" seed).2 = take 1 seed ++ drop 2 seed.
Proof.
  destruct (mutations_keep_other_records "2" None ∅ seed 1 eq_refl)
    as ((_ & Hput & _) & (Hdel & _) & _).
  split; [apply Hput; lia | exact Hdel].
Defined.

(** ** Ids *)

(** C1, at the input where it fails: delete id 2 from the initial array and
    create a record.  The array then holds the ids 1, 3 and 3. *)
Theorem post_after_delete_repeats_id :
  let s := run [DELETE_book "2"; POST_books (Some ∅)] seed in
  reachable s ∧
  id <$> s = [Num 1; Num 3; Num 3] ∧
  ¬ NoDup (id <$> s).
Proof.
  split_and!.
  - apply (reach_step (POST_books (Some ∅)) _
             (reach_step (DELETE_book "2") _ reach_seed)).
  - reflexivity.
  - change (¬ NoDup [Num 1; Num 3; Num 3]).
    rewrite !NoDup_cons. intros (_ & Hnot & _). apply Hnot. by left.
Qed.

Lemma run_cons (r : request) (rs : list request) (s : list Book) :
  run (r :: rs) s = run rs (handle r s).2.
Proof. reflexivity. Qed.

Lemma reachable_run (rs : list request) (s : list Book) :
  reachable s → reachable (run rs s).
Proof.
  revert s. induction rs as [|r rs IH]; intros s Hs; [done|].
  rewrite run_cons. apply IH. by constructor.
Qed.

Lemma handle_numbered (r : request) (s : list Book) :
  is_delete r = false → numbered s → numbered (handle r s).2.
Proof.
  unfold numbered. intros Hr Hs.
  destruct r as [| |seg|b|seg b|seg|]; try done; unfold handle.
  - unfold get_book. by destruct (find _ s).
  - destruct b as [o|]; [|done]. simpl.
    rewrite length_app, Nat.add_comm.
    change (1 + length s)%nat with (S (length s)).
    rewrite fmap_app, Hs, seq_S, fmap_app. simpl.
    do 3 f_equal. lia.
  - rewrite put_book_ids, Hs. f_equal. f_equal.
    unfold put_book. destruct b as [o|]; [|done].
    destruct (findIndex _ s); [|done]. simpl. by rewrite length_insert.
Qed.

(** X9: as long as nothing is deleted the ids stay pairwise distinct: after
    any sequence of requests without a DELETE the array holds the ids
    1, 2, ..., each once. *)
Lemma ids_distinct_without_delete (rs : list request) :
  forallb (λ r, negb (is_delete r)) rs = true →
  numbered (run rs seed) ∧ NoDup (id <$> run rs seed).
Proof.
  intros Hrs.
  assert (numbered (run rs seed)) as Hnum.
  { assert (numbered seed) as Hseed by reflexivity.
    revert Hrs Hseed. generalize seed.
    induction rs as [|r rs IH]; intros s Hrs Hs; [done|].
    simpl in Hrs. apply andb_prop in Hrs as [Hr Hrs].
    rewrite run_cons. apply IH; [done|].
    apply handle_numbered; [|done]. by apply negb_true_iff. }
  split; [done|]. rewrite Hnum. apply NoDup_fmap_2_strong; [|apply NoDup_seq].
  intros x y _ _ [=]. lia.
Qed.

(** ** The checks that are not there *)

(** C2, at the input where it fails: a POST without a body.  With
    [req.body] undefined the handler throws before it touches the array and
    the client gets a 500; with the empty object for a body the handler
    appends a record that has an id only and answers 201.  No body makes
    the handler answer 400. *)
Theorem post_book_never_400 (books : list Book) :
  post_book None books = (Thrown, books) ∧
  post_book (Some ∅) books =
    (Sent (mkResponse 201
             (BookJson (Some (mkBook (Num (Z.of_nat (length books) + 1))
                                None None None None)))),
     books ++ [mkBook (Num (Z.of_nat (length books) + 1))
                 None None None None]) ∧
  ∀ b, status_of (post_book b books).1 ≠ 400.
Proof.
  split_and!; [done..|]. intros [o|]; simpl; lia.
Qed.

(** C8, at the input where it fails: the array emptied by three deletes.
    No request the application routes takes the empty array back to the
    initial one in one step; the module defines no operation besides its
    routes. *)
Theorem no_request_restores_seed :
  reachable [] ∧ ∀ r, (handle r []).2 ≠ seed.
Proof.
  split.
  - apply (reachable_run [DELETE_book "1"; DELETE_book "2"; DELETE_book "3"]
             seed reach_seed).
  - intros [| |seg|b|seg b|seg|]; simpl; try done.
    + by destruct b.
    + by destruct b.
Qed.

(** ** Segments with a digit prefix *)

(** A decimal digit is no white space, no sign and no x; in radix 10 it
    counts for its value, and nothing else is a digit there. *)
Lemma digit_char (c : ascii) :
  is_digit c = true →
  is_white c = false ∧ Ascii.eqb "-" c = false ∧ Ascii.eqb "+" c = false ∧
  Ascii.eqb "x" c = false ∧ Ascii.eqb "X" c = false ∧
  digit_in 10 c = Some (code c - 48).
Proof.
  destruct c as [[] [] [] [] [] [] [] []]; vm_compute; intros H;
    first [discriminate H | repeat split].
Qed.

Lemma non_digit_char (c : ascii) :
  is_digit c = false → digit_in 10 c = None.
Proof.
  destruct c as [[] [] [] [] [] [] [] []]; vm_compute; intros H;
    first [discriminate H | reflexivity].
Qed.

Lemma append_cons (c : ascii) (s r : string) :
  String c s +:+ r = String c (s +:+ r).
Proof. reflexivity. Qed.

Lemma append_empty (s : string) : s +:+ "" = s.
Proof.
  induction s as [|c s IH]; [done|]. by rewrite append_cons, IH.
Qed.

Lemma parse_digits_prefix (d r : string) (acc : option Z) :
  all_digits d = true → no_leading_digit r = true →
  parse_digits 10 (d +:+ r) acc =
    match d with
    | EmptyString => acc
    | String _ _ => Some (decimal_from (default 0 acc) d)
    end.
Proof.
  intros Hd Hr. revert acc. induction d as [|c d IH]; intros acc.
  - change ("" +:+ r) with r. destruct r as [|c r]; [done|]. simpl in *.
    apply negb_true_iff in Hr. by rewrite (non_digit_char _ Hr).
  - rewrite append_cons. simpl.
    simpl in Hd. apply andb_prop in Hd as [Hc Hd].
    destruct (digit_char _ Hc) as (_ & _ & _ & _ & _ & ->).
    rewrite (IH Hd). by destruct d.
Qed.

Lemma all_digits_not_hex (d : string) :
  all_digits d = true → hex_prefixed d = false.
Proof.
  destruct d as [|c [|c' d]]; simpl; intros Hd; [done|..].
  - unfold hex_prefixed, is_char, tail. by rewrite andb_false_r.
  - apply andb_prop in Hd as [_ [Hc' _]%andb_prop].
    destruct (digit_char _ Hc') as (_ & _ & _ & Hx & HX & _).
    unfold hex_prefixed, is_char, tail. by rewrite Hx, HX, andb_false_r.
Qed.

Lemma parseInt_digit_prefix (d r : string) :
  d ≠ "" → all_digits d = true → no_leading_digit r = true →
  hex_prefixed (d +:+ r) = false →
  parseInt (d +:+ r) = Num (decimal d).
Proof.
  intros Hne Hd Hr Hhex. destruct d as [|c d]; [done|].
  pose proof Hd as [Hc _]%andb_prop.
  destruct (digit_char _ Hc) as (Hw & Hminus & Hplus & _).
  unfold parseInt.
  change (trim_start (String c d +:+ r))
    with (if is_white c then trim_start (d +:+ r) else String c (d +:+ r)).
  rewrite Hw.
  change (is_char "-" (String c (d +:+ r))) with (Ascii.eqb "-" c).
  change (is_char "+" (String c (d +:+ r))) with (Ascii.eqb "+" c).
  rewrite Hminus, Hplus. cbv zeta.
  change (false || false) with false. cbv iota.
  change (String c (d +:+ r)) with (String c d +:+ r).
  rewrite Hhex, (parse_digits_prefix _ _ None Hd Hr).
  unfold decimal. simpl. f_equal. by destruct (decimal_from _ d).
Qed.

(** C10, as amended: a segment made of decimal digits followed by a rest
    that does not start with a digit, and that does not begin with 0x or 0X,
    parses to the integer its digits denote, like the digits alone; GET, PUT
    and DELETE on it do exactly what they do on the digits alone. *)
Theorem digit_prefix_segment (d r : string) (b : req_body)
    (books : list Book) :
  d ≠ "" → all_digits d = true → no_leading_digit r = true →
  hex_prefixed (d +:+ r) = false →
  parseInt (d +:+ r) = Num (decimal d) ∧
  parseInt d = Num (decimal d) ∧
  get_book (d +:+ r) books = get_book d books ∧
  put_book (d +:+ r) b books = put_book d b books ∧
  delete_book (d +:+ r) books = delete_book d books.
Proof.
  intros Hne Hd Hr Hhex.
  pose proof (parseInt_digit_prefix d r Hne Hd Hr Hhex) as Hdr.
  assert (parseInt d = Num (decimal d)) as Hdd.
  { rewrite <-(append_empty d) at 1.
    apply parseInt_digit_prefix; [done..|].
    rewrite append_empty. by apply all_digits_not_hex. }
  unfold get_book, put_book, delete_book. rewrite Hdr, Hdd. done.
Qed.

Lemma digit_prefix_segment_witness :
  get_book "2abc" seed = get_book "2" seed ∧
  (get_book "2abc" seed).1 = Sent (mkResponse 200 (BookJson (seed !! 1%nat))).
Proof.
  destruct (digit_prefix_segment "2" "abc" None seed) as (_ & _ & Hget & _);
    [discriminate | reflexivity | reflexivity | reflexivity |].
  split; [exact Hget | reflexivity].
Defined.

(** C10 as stated fails: 0xf is the digit 0 followed by two characters that
    are no digits, and it parses to 15.  Once the array holds fifteen
    records (twelve creations), GET on 0xf answers 200 with the record of
    id 15, where GET on 0 answers 404. *)
Lemma hex_segment_is_not_its_digit_prefix :
  ¬ (∀ d r b books,
       reachable books → d ≠ "" → all_digits d = true → no_digits r = true →
       parseInt (d +:+ r) = Num (decimal d) ∧
       get_book (d +:+ r) books = get_book d books ∧
       put_book (d +:+ r) b books = put_book d b books ∧
       delete_book (d +:+ r) books = delete_book d books).
Proof.
  intros Hclaim.
  destruct (Hclaim "0" "xf" None
              (run (replicate 12 (POST_books (Some ∅))) seed))
    as (_ & Hget & _).
  - apply reachable_run, reach_seed.
  - discriminate.
  - reflexivity.
  - reflexivity.
  - assert (status_of (get_book "0xf"
              (run (replicate 12 (POST_books (Some ∅))) seed)).1 = 200)
      as H200 by (vm_compute; reflexivity).
    assert (status_of (get_book "0"
              (run (replicate 12 (POST_books (Some ∅))) seed)).1 = 404)
      as H404 by (vm_compute; reflexivity).
    change ("0" +:+ "xf") with "0xf" in Hget.
    rewrite Hget, H404 in H200. discriminate.
Qed.

(** * Further properties of the handlers *)

(** ** What the ids in the array look like *)

Lemma handle_positive_ids (r : request) (s : list Book) :
  positive_ids s → positive_ids (handle r s).2.
Proof.
  unfold positive_ids. intros Hs.
  destruct r as [| |seg|b|seg b|seg|]; try done; unfold handle.
  - unfold get_book. by destruct (find _ s).
  - destruct b as [o|]; [|done]. simpl.
    rewrite fmap_app, Forall_app. split; [done|].
    apply Forall_singleton. eexists. split; [done|]. lia.
  - by rewrite put_book_ids.
  - unfold delete_book. destruct (findIndex _ s) as [i|]; [|done].
    rewrite splice1_spec. simpl. rewrite list_fmap_delete.
    by apply Forall_delete.
Qed.

Lemma positive_ids_reachable (s : list Book) :
  reachable s → positive_ids s.
Proof.
  induction 1 as [|r s _ IH].
  - unfold positive_ids. simpl.
    repeat (apply Forall_cons; split; [eexists; split; [done|lia]|]).
    apply Forall_nil_2.
  - by apply handle_positive_ids.
Qed.

(** X1: whatever requests the server has handled, the id of every record in
    the array is an integer that is at least 1: never NaN, never 0, never
    negative. *)
Theorem reachable_ids_positive (s : list Book) (m : Book) :
  reachable s → m ∈ s → ∃ n, id m = Num n ∧ 1 ≤ n.
Proof.
  intros Hs Hm. apply positive_ids_reachable in Hs.
  unfold positive_ids in Hs. rewrite Forall_forall in Hs.
  apply Hs, list_elem_of_fmap. by exists m.
Qed.

Lemma reachable_ids_positive_witness :
  ∃ n, Num 3 = Num n ∧ 1 ≤ n.
Proof.
  apply (reachable_ids_positive
           (run [DELETE_book "1"; POST_books (Some ∅)] seed)
           (mkBook (Num 3) None None None None)).
  - apply (reachable_run [DELETE_book "1"; POST_books (Some ∅)] seed
             reach_seed).
  - do 2 apply list_elem_of_further. apply list_elem_of_here.
Defined.

(** X2: on the running server a segment that parses to zero or to a
    negative integer matches no record: GET, PUT (with an object as body)
    and DELETE on it answer 404 "Book not found" and leave the array as it
    is. *)
Theorem nonpositive_id_not_found (seg : string) (n : Z)
    (o : gmap string json) (s : list Book) :
  reachable s → parseInt seg = Num n → n ≤ 0 →
  get_book seg s = (not_found, s) ∧
  put_book seg (Some o) s = (not_found, s) ∧
  delete_book seg s = (not_found, s).
Proof.
  intros Hs Hseg Hn.
  assert (findIndex (λ m, strict_eq (id m) (Num n)) s = None) as Hfind.
  { apply findIndex_None_iff. intros m Hm. apply not_true_is_false.
    rewrite strict_eq_Num. intros Hid.
    apply positive_ids_reachable in Hs. unfold positive_ids in Hs.
    rewrite Forall_forall in Hs.
    destruct (Hs (id m)) as (k & Hk & Hpos).
    - apply list_elem_of_fmap. by exists m.
    - rewrite Hid in Hk. injection Hk as ->. lia. }
  unfold get_book, put_book, delete_book.
  by rewrite Hseg, find_findIndex, Hfind.
Qed.

Lemma nonpositive_id_not_found_witness :
  get_book "-1" seed = (not_found, seed) ∧
  put_book "-1" (Some ∅) seed = (not_found, seed) ∧
  delete_book "-1" seed = (not_found, seed).
Proof.
  apply (nonpositive_id_not_found "-1" (-1) ∅ seed reach_seed eq_refl).
  lia.
Defined.

(** ** Requests that fail, and the length of the array *)

(** X3: a request that is answered with an error (a status of 400 or more,
    the 500 of a thrown exception included) has not changed the array. *)
Theorem error_leaves_array (r : request) (s : list Book) :
  400 ≤ status_of (handle r s).1 → (handle r s).2 = s.
Proof.
  destruct r as [| |seg|b|seg b|seg|]; try done; unfold handle.
  - unfold get_book. by destruct (find _ s).
  - destruct b as [o|]; [|done]. simpl. lia.
  - unfold put_book. destruct b as [o|]; [|done].
    destruct (findIndex _ s); [|done]. simpl. lia.
  - unfold delete_book. destruct (findIndex _ s); [|done].
    rewrite splice1_spec. simpl. lia.
Qed.

Lemma error_leaves_array_witness :
  (handle (PUT_book "7" None) seed).2 = seed.
Proof.
  apply (error_leaves_array (PUT_book "7" None) seed). vm_compute. discriminate.
Defined.

(** X4: the array grows only by a POST answered 201 and shrinks only by a
    DELETE answered 200, by one element each time; after any other request,
    and after a POST or DELETE answered otherwise, it is as long as
    before. *)
Theorem length_after_request (r : request) (s : list Book) :
  let st := status_of (handle r s).1 in
  let n' := length (handle r s).2 in
  (st = 201 → is_post r = true ∧ n' = S (length s)) ∧
  (is_delete r = true → st = 200 → S n' = length s) ∧
  (is_delete r = true → st ≠ 200 → n' = length s) ∧
  (is_delete r = false → st ≠ 201 → n' = length s).
Proof.
  destruct r as [| |seg|b|seg b|seg|]; unfold handle; cbv zeta.
  - split_and!; done.
  - split_and!; done.
  - unfold get_book. destruct (find _ s); split_and!; done.
  - destruct b as [o|]; simpl; split_and!; try done.
    intros _. split; [done|]. rewrite length_app. simpl. lia.
  - unfold put_book. destruct b as [o|]; [|split_and!; done].
    destruct (findIndex _ s); simpl; split_and!; try done.
    intros _ _. apply length_insert.
  - unfold delete_book. destruct (findIndex _ s) as [i|] eqn:Hfind.
    + rewrite splice1_spec. simpl. split_and!; try done.
      intros _ _. apply findIndex_lt in Hfind.
      rewrite length_delete by by apply lookup_lt_is_Some. lia.
    + simpl. split_and!; done.
  - split_and!; done.
Qed.

Lemma length_after_request_witness :
  S (length (handle (DELETE_book "2") seed).2) = length seed.
Proof.
  destruct (length_after_request (DELETE_book "2") seed) as (_ & Hdel & _).
  apply Hdel; reflexivity.
Defined.

(** ** How the handlers compose *)

Lemma get_book_found (seg : string) (s : list Book) (i : nat) :
  findIndex (λ m, strict_eq (id m) (parseInt seg)) s = Some i →
  ∃ old, s !! i = Some old ∧
         get_book seg s = (json_ok (BookJson (Some old)), s).
Proof.
  intros Hfind. pose proof Hfind as (old & Hold & _)%findIndex_Some_iff.
  exists old. split; [done|]. unfold get_book.
  rewrite find_findIndex, Hfind. simpl. by rewrite Hold.
Qed.

Lemma get_book_missing (seg : string) (s : list Book) :
  findIndex (λ m, strict_eq (id m) (parseInt seg)) s = None →
  get_book seg s = (not_found, s).
Proof.
  intros Hfind. unfold get_book. by rewrite find_findIndex, Hfind.
Qed.

Lemma put_book_found (seg : string) (o : gmap string json) (s : list Book)
    (i : nat) :
  findIndex (λ m, strict_eq (id m) (parseInt seg)) s = Some i →
  put_book seg (Some o) s =
    (json_ok (BookJson (Some (replacement (parseInt seg) o))),
     <[i:=replacement (parseInt seg) o]> s).
Proof.
  intros Hfind. unfold put_book. rewrite Hfind. cbv zeta.
  rewrite list_lookup_insert_eq; [done|]. by eapply findIndex_lt.
Qed.

(** The record PUT stores is again the first one the segment matches. *)
Lemma findIndex_after_put (seg : string) (o : gmap string json)
    (s : list Book) (i : nat) :
  findIndex (λ m, strict_eq (id m) (parseInt seg)) s = Some i →
  findIndex (λ m, strict_eq (id m) (parseInt seg))
    (<[i:=replacement (parseInt seg) o]> s) = Some i.
Proof.
  intros Hfind. pose proof (findIndex_lt _ _ _ Hfind) as Hi.
  apply findIndex_Some_iff in Hfind as (old & Hold & Hp & Hfirst).
  apply findIndex_Some_iff. exists (replacement (parseInt seg) o).
  split_and!.
  - by apply list_lookup_insert_eq.
  - apply strict_eq_true in Hp as (n & _ & ->). simpl.
    by apply bool_decide_eq_true.
  - intros j m Hj Hm. rewrite list_lookup_insert_ne in Hm by lia.
    by eapply Hfirst.
Qed.

(** X5: PUT is idempotent.  Sending the same PUT a second time gives the
    same answer as the first and leaves the array as the first left it,
    whatever the segment, the body and the array. *)
Theorem put_book_idempotent (seg : string) (b : req_body) (s : list Book) :
  put_book seg b (put_book seg b s).2 = put_book seg b s.
Proof.
  destruct b as [o|]; [|done].
  destruct (findIndex (λ m, strict_eq (id m) (parseInt seg)) s) as [i|]
    eqn:Hfind.
  - rewrite (put_book_found _ _ _ _ Hfind). cbn [fst snd].
    rewrite (put_book_found _ _ _ _ (findIndex_after_put _ o _ _ Hfind)).
    by rewrite list_insert_insert_eq.
  - unfold put_book. rewrite Hfind. cbn [fst snd]. by rewrite Hfind.
Qed.

(** X6: a GET right after a PUT on the same segment gives the answer the
    PUT gave: the record just stored with 200, or the same 404; and it
    leaves the array the PUT left. *)
Theorem get_after_put (seg : string) (o : gmap string json)
    (s : list Book) :
  get_book seg (put_book seg (Some o) s).2 = put_book seg (Some o) s.
Proof.
  destruct (findIndex (λ m, strict_eq (id m) (parseInt seg)) s) as [i|]
    eqn:Hfind.
  - rewrite (put_book_found _ _ _ _ Hfind). cbn [fst snd].
    destruct (get_book_found _ _ _ (findIndex_after_put _ o _ _ Hfind))
      as (nb & Hnb & ->).
    rewrite list_lookup_insert_eq in Hnb by by eapply findIndex_lt.
    by injection Hnb as <-.
  - unfold put_book. rewrite Hfind. cbn [fst snd]. by apply get_book_missing.
Qed.


Lemma seed_ids_distinct : NoDup (id <$> seed).
Proof.
  change (NoDup [Num 1; Num 2; Num 3]). rewrite !NoDup_cons.
  split_and!; [| |by intros ?%elem_of_nil|apply NoDup_nil_2];
    intros H; repeat (apply elem_of_cons in H as [H|H]; [discriminate H|]);
    by apply elem_of_nil in H.
Qed.

Lemma ids_distinct_without_delete_witness :
  NoDup (id <$> run [POST_books (Some ∅); PUT_book "2" (Some ∅);
                     POST_books None; GET_book "9"] seed).
Proof.
  apply (ids_distinct_without_delete
           [POST_books (Some ∅); PUT_book "2" (Some ∅); POST_books None;
            GET_book "9"]).
  reflexivity.
Defined.

(** The search in the array after a POST: an earlier match stays the first
    match; without one the new record is found exactly when it matches. *)
Lemma findIndex_snoc {A} (p : A → bool) (l : list A) (x : A) :
  findIndex p (l ++ [x]) =
    match findIndex p l with
    | Some i => Some i
    | None => if p x then Some (length l) else None
    end.
Proof.
  induction l as [|a l IH]; simpl.
  - by destruct (p x).
  - destruct (p a); [done|]. rewrite IH.
    destruct (findIndex p l); [done|]. by destruct (p x).
Qed.

(** X7: the record a POST creates can be fetched by the id it was given,
    unless an older record has that id.  For a segment that parses to the
    new id (the array's length plus one), GET after the POST always answers
    200; the answer is the new record when no record had that id before,
    and otherwise it is still the older record that GET answered with
    before the POST. *)
Theorem get_after_post (seg : string) (o : gmap string json)
    (s : list Book) :
  parseInt seg = Num (Z.of_nat (length s) + 1) →
  let s' := (post_book (Some o) s).2 in
  status_of (get_book seg s').1 = 200 ∧
  ((∀ m, m ∈ s → id m ≠ Num (Z.of_nat (length s) + 1)) →
   (get_book seg s').1 = json_ok (BookJson (Some (created (length s) o)))) ∧
  (status_of (get_book seg s).1 = 200 →
   (get_book seg s').1 = (get_book seg s).1).
Proof.
  intros Hseg. cbv zeta. cbn [post_book snd].
  pose proof (findIndex_snoc (λ m, strict_eq (id m) (parseInt seg)) s
                (created (length s) o)) as Hsnoc.
  fold (created (length s) o).
  destruct (findIndex (λ m, strict_eq (id m) (parseInt seg)) s) as [i|]
    eqn:Hfind.
  - destruct (get_book_found _ _ _ Hsnoc) as (old' & Hold' & ->).
    destruct (get_book_found _ _ _ Hfind) as (old & Hold & ->).
    rewrite lookup_app_l in Hold' by by eapply findIndex_lt.
    assert (old' = old) as -> by congruence.
    split_and!; [done| |done].
    intros Hfresh. exfalso.
    apply findIndex_Some_iff in Hfind as (old2 & Hold2 & Hp & _).
    rewrite Hseg in Hp. apply strict_eq_Num in Hp.
    eapply Hfresh; [|done]. by eapply list_elem_of_lookup_2.
  - assert (strict_eq (id (created (length s) o)) (parseInt seg) = true)
      as Hnew by (rewrite Hseg; by apply strict_eq_Num).
    rewrite Hnew in Hsnoc.
    destruct (get_book_found _ _ _ Hsnoc) as (nb & Hnb & ->).
    rewrite lookup_app_r, Nat.sub_diag in Hnb by lia. injection Hnb as <-.
    rewrite (get_book_missing _ _ Hfind).
    split_and!; [done..|]. simpl. lia.
Qed.

Lemma get_after_post_witness :
  (get_book "4" (post_book (Some {["title" := JStr "Partial"]}) seed).2).1 =
    json_ok (BookJson (Some (mkBook (Num 4) (Some (JStr "Partial"))
                               None None None))).
Proof.
  destruct (get_after_post "4" {["title" := JStr "Partial"]} seed eq_refl)
    as (_ & Hfresh & _).
  apply Hfresh. intros m Hm.
  repeat (apply elem_of_cons in Hm as [->|Hm]; [discriminate|]).
  by apply elem_of_nil in Hm.
Defined.

(** ** Distinct ids *)

(** X15: PUT, DELETE and the reading requests keep the ids in the array
    pairwise distinct; a POST with an object as body keeps them distinct
    exactly when no record already has the id it assigns, the array's
    length plus one. *)
Theorem distinct_ids_step (r : request) (o : gmap string json)
    (s : list Book) :
  NoDup (id <$> s) →
  (is_post r = false → NoDup (id <$> (handle r s).2)) ∧
  (NoDup (id <$> (post_book (Some o) s).2) ↔
   ∀ m, m ∈ s → id m ≠ Num (Z.of_nat (length s) + 1)).
Proof.
  intros Hnd. split.
  - destruct r as [| |seg|b|seg b|seg|]; try done; unfold handle; intros _.
    + unfold get_book. by destruct (find _ s).
    + by rewrite put_book_ids.
    + unfold delete_book. destruct (findIndex _ s) as [i|]; [|done].
      rewrite splice1_spec. cbn [snd]. rewrite list_fmap_delete.
      eapply sublist_NoDup; [done | apply sublist_delete].
  - cbn [post_book snd]. rewrite fmap_app, NoDup_app. simpl. split.
    + intros (_ & Hfresh & _) m Hm Hid.
      apply (Hfresh (id m)); [|rewrite Hid; by left].
      apply list_elem_of_fmap. by exists m.
    + intros Hfresh. split_and!; [done| |apply NoDup_singleton].
      intros x (m & -> & Hm)%list_elem_of_fmap Hx.
      apply list_elem_of_singleton in Hx. by eapply Hfresh.
Qed.

Lemma distinct_ids_step_witness :
  NoDup (id <$> (handle (DELETE_book "2") seed).2) ∧
  NoDup (id <$> (post_book (Some ∅) seed).2).
Proof.
  destruct (distinct_ids_step (DELETE_book "2") ∅ seed seed_ids_distinct)
    as (Hstep & Hpost).
  split; [by apply Hstep|]. apply Hpost. intros m Hm.
  repeat (apply elem_of_cons in Hm as [->|Hm]; [discriminate|]).
  by apply elem_of_nil in Hm.
Defined.

(** X8: while the ids are pairwise distinct, a record deleted is gone: after
    a DELETE answered 200, GET, PUT (with an object as body) and DELETE on
    the same segment answer 404 "Book not found" and change nothing. *)
Theorem gone_after_delete (seg : string) (o : gmap string json)
    (s : list Book) :
  NoDup (id <$> s) →
  status_of (delete_book seg s).1 = 200 →
  let s' := (delete_book seg s).2 in
  get_book seg s' = (not_found, s') ∧
  put_book seg (Some o) s' = (not_found, s') ∧
  delete_book seg s' = (not_found, s').
Proof.
  intros Hnd Hst. cbv zeta.
  destruct (findIndex (λ m, strict_eq (id m) (parseInt seg)) s) as [i|]
    eqn:Hfind.
  - pose proof (delete_book_twice_distinct_ids _ _ _ Hnd Hfind) as Htwice.
    set (s' := (delete_book seg s).2) in *.
    assert (findIndex (λ m, strict_eq (id m) (parseInt seg)) s' = None)
      as Hgone.
    { destruct (findIndex _ s') as [j|] eqn:Hj; [|done].
      destruct (delete_book_found _ _ _ Hj) as (x & _ & Hdel).
      rewrite Hdel in Htwice. discriminate Htwice. }
    split_and!; [by apply get_book_missing| |done].
    unfold put_book. by rewrite Hgone.
  - rewrite (delete_book_missing _ _ Hfind) in Hst. simpl in Hst. lia.
Qed.

Lemma gone_after_delete_witness :
  get_book "3" (delete_book "3" seed).2 =
    (not_found, (delete_book "3" seed).2).
Proof.
  destruct (gone_after_delete "3" ∅ seed seed_ids_distinct eq_refl)
    as (Hget & _).
  exact Hget.
Defined.

(** ** More on how a segment is read *)

Lemma trim_start_white (w s : string) :
  all_white w = true → trim_start (w +:+ s) = trim_start s.
Proof.
  induction w as [|c w IH]; [done|]. cbn [all_white].
  intros [Hc Hw]%andb_prop.
  rewrite append_cons. cbn [trim_start]. rewrite Hc. by apply IH.
Qed.

(** X11: white space in front of a segment (a blank or a tab, say, sent
    percent-encoded) is skipped: GET, PUT and DELETE on the segment with
    it do exactly what they do on the segment without it. *)
Theorem leading_white_ignored (w seg : string) (b : req_body)
    (s : list Book) :
  all_white w = true →
  parseInt (w +:+ seg) = parseInt seg ∧
  get_book (w +:+ seg) s = get_book seg s ∧
  put_book (w +:+ seg) b s = put_book seg b s ∧
  delete_book (w +:+ seg) s = delete_book seg s.
Proof.
  intros Hw.
  assert (parseInt (w +:+ seg) = parseInt seg) as Heq.
  { unfold parseInt. by rewrite (trim_start_white _ _ Hw). }
  unfold get_book, put_book, delete_book. by rewrite Heq.
Qed.

Lemma leading_white_ignored_witness :
  get_book " 2" seed = get_book "2" seed ∧
  status_of (get_book " 2" seed).1 = 200.
Proof.
  destruct (leading_white_ignored " " "2" None seed eq_refl)
    as (_ & Hget & _).
  split; [exact Hget | reflexivity].
Defined.

Lemma parseInt_no_number_start (seg : string) :
  no_number_start seg = true → parseInt seg = NaN.
Proof.
  destruct seg as [|c r]; [done|]. cbn [no_number_start].
  intros [[[Hw Hminus]%andb_prop Hplus]%andb_prop Hd]%andb_prop.
  apply negb_true_iff in Hw, Hminus, Hplus, Hd.
  assert (Ascii.eqb "0" c = false) as Hzero.
  { apply not_true_is_false. intros <-%Ascii.eqb_eq. discriminate Hd. }
  unfold parseInt.
  change (trim_start (String c r))
    with (if is_white c then trim_start r else String c r).
  rewrite Hw.
  change (is_char "-" (String c r)) with (Ascii.eqb "-" c).
  change (is_char "+" (String c r)) with (Ascii.eqb "+" c).
  rewrite Hminus, Hplus. cbv zeta.
  change (false || false) with false. cbv iota.
  assert (hex_prefixed (String c r) = false) as ->.
  { unfold hex_prefixed, is_char. by rewrite Hzero. }
  simpl. by rewrite (non_digit_char _ Hd).
Qed.

(** X12: a segment that is empty or begins with a character that is no
    white space, no sign and no decimal digit (a letter, say) is no number:
    GET, PUT (with an object as body) and DELETE on it answer 404 "Book not
    found" and leave the array as it is, whatever the array holds. *)
Theorem non_number_start_not_found (seg : string) (o : gmap string json)
    (s : list Book) :
  no_number_start seg = true →
  parseInt seg = NaN ∧
  get_book seg s = (not_found, s) ∧
  put_book seg (Some o) s = (not_found, s) ∧
  delete_book seg s = (not_found, s).
Proof.
  intros Hseg. apply parseInt_no_number_start in Hseg.
  unfold get_book, put_book, delete_book.
  by rewrite Hseg, find_findIndex, findIndex_NaN.
Qed.

Lemma non_number_start_not_found_witness :
  get_book "abc" seed = (not_found, seed) ∧
  delete_book "x1" seed = (not_found, seed).
Proof.
  destruct (non_number_start_not_found "abc" ∅ seed eq_refl)
    as (_ & Hget & _).
  destruct (non_number_start_not_found "x1" ∅ seed eq_refl)
    as (_ & _ & _ & Hdel).
  split; [exact Hget | exact Hdel].
Defined.

(** ** Ids written into the path *)

Lemma digit_ascii (v : Z) :
  0 ≤ v < 10 →
  is_digit (ascii_of_N (Z.to_N (48 + v))) = true ∧
  code (ascii_of_N (Z.to_N (48 + v))) - 48 = v.
Proof.
  intros Hv.
  assert (v = 0 ∨ v = 1 ∨ v = 2 ∨ v = 3 ∨ v = 4 ∨ v = 5 ∨ v = 6 ∨ v = 7 ∨
          v = 8 ∨ v = 9) as Hcases by lia.
  repeat (destruct Hcases as [->|Hcases]; [by vm_compute|]).
  subst v. by vm_compute.
Qed.

Lemma decimal_from_app (a : Z) (d1 d2 : string) :
  decimal_from a (d1 +:+ d2) = decimal_from (decimal_from a d1) d2.
Proof.
  revert a. induction d1 as [|c d1 IH]; intros a; [done|].
  rewrite append_cons. cbn [decimal_from]. apply IH.
Qed.

Lemma all_digits_app (d1 d2 : string) :
  all_digits (d1 +:+ d2) = all_digits d1 && all_digits d2.
Proof.
  induction d1 as [|c d1 IH]; [done|].
  rewrite append_cons. cbn [all_digits]. by rewrite IH, andb_assoc.
Qed.

Lemma append_snoc (d : string) (c : ascii) (acc : string) :
  d +:+ String c acc = (d +:+ String c "") +:+ acc.
Proof.
  induction d as [|c' d IH]; [done|]. by rewrite !append_cons, IH.
Qed.

Lemma digits_of_spec (fuel : nat) (n : Z) (acc : string) :
  0 ≤ n < 2 ^ Z.of_nat fuel → (0 < fuel)%nat →
  ∃ d, digits_of fuel n acc = d +:+ acc ∧ d ≠ "" ∧
       all_digits d = true ∧ decimal_from 0 d = n.
Proof.
  revert n acc. induction fuel as [|f IH]; intros n acc Hn Hf; [lia|].
  cbn [digits_of].
  assert (0 ≤ n mod 10 < 10) as Hmod by (apply Z.mod_pos_bound; lia).
  destruct (digit_ascii _ Hmod) as (Hdig & Hval).
  set (c := ascii_of_N (Z.to_N (48 + n mod 10))) in *.
  destruct (Z.ltb_spec n 10) as [Hlt|Hge].
  - exists (String c ""). split_and!; [done|done| |].
    + cbn [all_digits]. by rewrite Hdig.
    + cbn [decimal_from]. rewrite Hval, Z.mod_small; lia.
  - rewrite Nat2Z.inj_succ, Z.pow_succ_r in Hn by lia.
    destruct f as [|f']; [simpl in Hn; lia|].
    destruct (IH (n / 10) (String c acc)) as (d0 & Heq & Hne & Hall & Hdec).
    { split; [apply Z.div_pos; lia|].
      apply Z.div_lt_upper_bound; lia. }
    { lia. }
    exists (d0 +:+ String c ""). split_and!.
    + by rewrite Heq, append_snoc.
    + destruct d0; [done|]. by rewrite append_cons.
    + rewrite all_digits_app, Hall. cbn [all_digits]. by rewrite Hdig.
    + rewrite decimal_from_app, Hdec. cbn [decimal_from]. rewrite Hval.
      pose proof (Z.div_mod n 10). lia.
Qed.

Lemma printed_digits (n : Z) :
  0 ≤ n →
  ∃ d, digits_of (S (Z.to_nat (Z.log2 n))) n "" = d ∧ d ≠ "" ∧
       all_digits d = true ∧ decimal d = n.
Proof.
  intros Hn.
  destruct (digits_of_spec (S (Z.to_nat (Z.log2 n))) n "") as (d & Hd & H);
    [|lia|].
  - rewrite Nat2Z.inj_succ, Z2Nat.id by apply Z.log2_nonneg.
    destruct (decide (n = 0)) as [->|Hpos]; [done|].
    pose proof (Z.log2_spec n). lia.
  - exists d. by rewrite Hd, append_empty.
Qed.

Lemma parse_digits_all (d : string) :
  d ≠ "" → all_digits d = true →
  hex_prefixed d = false ∧ parse_digits 10 d None = Some (decimal d).
Proof.
  intros Hne Hd. split; [by apply all_digits_not_hex|].
  rewrite <-(append_empty d) at 1.
  rewrite (parse_digits_prefix d "" None Hd eq_refl).
  by destruct d.
Qed.

Lemma parseInt_digits (d : string) :
  d ≠ "" → all_digits d = true → parseInt d = Num (decimal d).
Proof.
  intros Hne Hd. rewrite <-(append_empty d) at 1.
  apply parseInt_digit_prefix; [done..|].
  rewrite append_empty. by apply all_digits_not_hex.
Qed.

Lemma parseInt_minus_digits (d : string) :
  d ≠ "" → all_digits d = true →
  parseInt (String "-" d) = Num (- decimal d).
Proof.
  intros Hne Hd. destruct (parse_digits_all d Hne Hd) as (Hhex & Hparse).
  unfold parseInt.
  change (trim_start (String "-" d)) with (String "-" d).
  change (is_char "-" (String "-" d)) with true. cbv iota.
  change (true || is_char "+" (String "-" d)) with true. cbv iota zeta.
  change (tail (String "-" d)) with d.
  rewrite Hhex, Hparse. f_equal.
Qed.

Lemma parseInt_printed (x : number) : parseInt (number_to_string x) = x.
Proof.
  destruct x as [n|]; [|done]. unfold number_to_string.
  destruct (Z.ltb_spec n 0) as [Hneg|Hpos].
  - destruct (printed_digits (- n)) as (d & -> & Hne & Hd & Hdec); [lia|].
    rewrite (parseInt_minus_digits d Hne Hd), Hdec. f_equal. lia.
  - destruct (printed_digits n Hpos) as (d & -> & Hne & Hd & Hdec).
    by rewrite (parseInt_digits d Hne Hd), Hdec.
Qed.

(** X13: writing an integer in decimal and reading it back with parseInt
    gives the integer, for every integer JavaScript holds exactly (below
    2^53 in absolute value). *)
Theorem parseInt_number_to_string (n : Z) :
  - 2 ^ 53 < n < 2 ^ 53 →
  parseInt (number_to_string (Num n)) = Num n.
Proof. intros _. apply parseInt_printed. Qed.

Lemma parseInt_number_to_string_witness :
  parseInt (number_to_string (Num 4096)) = Num 4096 ∧
  parseInt (number_to_string (Num (-17))) = Num (-17).
Proof.
  split; apply parseInt_number_to_string; lia.
Defined.



Example number_to_string_examples :
  number_to_string (Num 120) = "120" ∧ number_to_string (Num 0) = "0" ∧
  number_to_string (Num (-7)) = "-7".
Proof. vm_compute. repeat split. Qed.

(** ** When the id of a new record repeats *)

Lemma numbered_lookup (s : list Book) (j : nat) :
  numbered s → (j < length s)%nat →
  (id <$> s) !! j = Some (Num (Z.of_nat (S j))).
Proof.
  unfold numbered. intros -> Hj.
  by rewrite list_lookup_fmap, lookup_seq_lt.
Qed.

(** X16: take an array whose ids are 1, 2, ... in order (as they are until
    the first DELETE).  After a DELETE answered 200 and then a POST with an
    object as body, the ids are pairwise distinct exactly when the record
    deleted was the last one; deleting any other record makes the POST
    repeat the id of the last record. *)
Theorem post_after_delete_distinct_iff (seg : string)
    (o : gmap string json) (s : list Book) :
  numbered s →
  status_of (delete_book seg s).1 = 200 →
  NoDup (id <$> (post_book (Some o) (delete_book seg s).2).2) ↔
  parseInt seg = Num (Z.of_nat (length s)).
Proof.
  intros Hnum Hst.
  destruct (findIndex (λ m, strict_eq (id m) (parseInt seg)) s) as [i|]
    eqn:Hfind;
    [|rewrite (delete_book_missing _ _ Hfind) in Hst; simpl in Hst; lia].
  pose proof (findIndex_lt _ _ _ Hfind) as Hi.
  destruct (delete_book_found _ _ _ Hfind) as (old & Hold & ->).
  apply findIndex_Some_iff in Hfind as (old' & Hold' & Hp & _).
  assert (old' = old) as -> by congruence.
  apply strict_eq_true in Hp as (k & Hk & Hseg).
  pose proof (numbered_lookup s i Hnum Hi) as Hid.
  rewrite list_lookup_fmap, Hold in Hid. simpl in Hid.
  assert (k = Z.of_nat (S i)) as -> by congruence.
  rewrite Hseg. cbn [post_book fst snd].
  rewrite fmap_app, list_fmap_delete. cbn [fmap list_fmap id].
  rewrite length_delete by by apply lookup_lt_is_Some.
  assert (Z.of_nat (length s - 1) + 1 = Z.of_nat (length s)) as -> by lia.
  split.
  - intros (_ & Hfresh & _)%NoDup_app.
    destruct (decide (S i = length s)) as [->|Hne]; [done|]. exfalso.
    apply (Hfresh (Num (Z.of_nat (length s)))); [|by left].
    apply list_elem_of_lookup. exists (length s - 2)%nat.
    rewrite list_lookup_delete_ge by lia.
    replace (S (length s - 2)) with (length s - 1)%nat by lia.
    rewrite (numbered_lookup s _ Hnum) by lia. do 3 f_equal. lia.
  - intros [= Hlast]. apply Nat2Z.inj in Hlast.
    unfold numbered in Hnum. rewrite Hnum, <-Hlast, seq_S.
    rewrite fmap_app. simpl.
    replace i with (length ((λ k, Num (Z.of_nat k)) <$> seq 1 i)) at 1
      by (by rewrite length_fmap, length_seq).
    rewrite delete_middle, app_nil_r.
    change [Num (Z.of_nat (S i))]
      with ((λ k, Num (Z.of_nat k)) <$> [S i]).
    rewrite <-fmap_app.
    apply NoDup_fmap_2_strong.
    + intros x y _ _ [=]. lia.
    + change (seq 1 i ++ [S i]) with (seq 1 i ++ [(1 + i)%nat]).
      rewrite <-seq_S. apply NoDup_seq.
Qed.

Lemma post_after_delete_distinct_iff_witness :
  NoDup (id <$> (post_book (Some ∅) (delete_book "3" seed).2).2) ∧
  ¬ NoDup (id <$> (post_book (Some ∅) (delete_book "1" seed).2).2).
Proof.
  split.
  - apply (post_after_delete_distinct_iff "3" ∅ seed); reflexivity.
  - intros Hnd.
    apply (post_after_delete_distinct_iff "1" ∅ seed) in Hnd;
      [discriminate Hnd | reflexivity..].
Defined.
